(** * ha-sync: Home Assistant entity locations forwarded to the position CLI

    A shallow embedding of [scripts/ha-sync.py].  Python values that come
    out of [resp.json()] are an inductive type; the two effects of the
    script that reach the outside (an HTTP GET through [requests], a child
    process through [subprocess.run]) and [print] are events emitted into a
    trace, and what the outside answers is read from an oracle that may
    depend on everything that happened before.  Python exceptions are a
    result constructor, [try]/[except] is a combinator; a library call may
    raise an exception of any class, and only the [except] clauses of the
    script decide which ones are caught. *)

From stdpp Require Import base strings list gmap pretty.
From Stdlib Require Import ZArith Ascii.

Local Open Scope Z_scope.
Set Warnings "-register-all".

(** ** Python values *)

(** The values [json.loads] builds.  A float is kept as its [repr], the
    shortest decimal string that reads back as the same double: the script
    never computes with a float, it only tests it for truth and renders it
    with [str]. *)
Inductive pyval : Type :=
| PNone
| PBool (b : bool)
| PInt (z : Z)
| PFloat (digits : string)
| PStr (s : string)
| PList (items : list pyval)
| PDict (items : list (string * pyval)).

Definition float_is_zero (digits : string) : bool :=
  String.eqb digits "0.0" || String.eqb digits "-0.0".

(** [bool(v)], as [if not v] evaluates it. *)
Definition truthy (v : pyval) : bool :=
  match v with
  | PNone => false
  | PBool b => b
  | PInt z => negb (z =? 0)
  | PFloat d => negb (float_is_zero d)
  | PStr s => negb (String.eqb s "")
  | PList l => match l with [] => false | _ => true end
  | PDict d => match d with [] => false | _ => true end
  end.

Definition is_None (v : pyval) : bool :=
  match v with PNone => true | _ => false end.

(** The value a dict holds under [key], if any. *)
Fixpoint dict_find (d : list (string * pyval)) (key : string) : option pyval :=
  match d with
  | [] => None
  | (k, v) :: rest => if String.eqb k key then Some v else dict_find rest key
  end.

(** [d.get(key, default)] on the items of a dict. *)
Definition dict_get (d : list (string * pyval)) (key : string) (default : pyval) : pyval :=
  match dict_find d key with
  | Some v => v
  | None => default
  end.

(** ** Exceptions *)

(** The exception classes the script names, the ones its operations raise
    on values of the wrong type, and one constructor for every other class
    a library call can raise ([PermissionError], [RecursionError],
    [ValueError], [UnicodeEncodeError], [UnicodeDecodeError], ...).
    [RequestException] stands for that class and its subclasses other than
    [JSONDecodeError]; [requests.exceptions.JSONDecodeError] derives from
    [InvalidJSONError] and so from [RequestException] (requests 2.27 and
    later, the version a Python 3.11 resolver picks for the unpinned
    dependency). *)
Inductive exn : Type :=
| RequestException (msg : string)
| JSONDecodeError (msg : string)
| CalledProcessError (returncode : Z) (stderr : string)
| FileNotFoundError
| AttributeError
| TypeError
| OtherException (cls : string).

Definition is_RequestException (e : exn) : bool :=
  match e with
  | RequestException _ | JSONDecodeError _ => true
  | _ => false
  end.

(** [str(e)]; the script formats only the exceptions of [requests]. *)
Definition exn_str (e : exn) : string :=
  match e with
  | RequestException msg | JSONDecodeError msg => msg
  | CalledProcessError _ _ => "Command returned non-zero exit status"
  | FileNotFoundError => "No such file or directory"
  | AttributeError => "object has no attribute"
  | TypeError => "expected str, bytes or os.PathLike object"
  | OtherException cls => cls
  end.

Inductive result (A : Type) : Type :=
| Return (a : A)
| Raise (e : exn).
Arguments Return {A} a.
Arguments Raise {A} e.

(** [obj.get(key, default)]: only a dict has the method. *)
Definition py_get (obj : pyval) (key : string) (default : pyval) : result pyval :=
  match obj with
  | PDict d => Return (dict_get d key default)
  | _ => Raise AttributeError
  end.

(** ** The outside world *)

Record response : Type := {
  status_code : Z;
  (** what [resp.json()] does: the parsed body, or the exception it
      raises ([JSONDecodeError] for a body that is not JSON,
      [RecursionError] for one nested too deep, [ValueError] for an
      integer with too many digits, ...) *)
  json : pyval + exn
}.

(** What [requests.get] does: it answers, or it raises (a
    [RequestException] for a transport failure, another class for, say, a
    header value that is not latin-1). *)
Inductive http_outcome : Type :=
| Responded (r : response)
| RequestRaised (e : exn).

(** What [subprocess.run] does with a well-typed argument list: the child
    ran and its captured output decoded as text, the child ran and its
    output did not decode, or the call raised ([FileNotFoundError],
    [PermissionError], [ValueError] for an embedded NUL, ...). *)
Inductive proc_outcome : Type :=
| Exited (returncode : Z) (stderr : string)
| ExitedUndecodable (returncode : Z)
| LaunchFailed (e : exn).

(** What a run does that can be seen from outside: a line on standard
    output, a GET handed to [requests], an argument list of strings
    handed to [subprocess.run]. *)
Inductive event : Type :=
| Printed (line : string)
| Requested (url : string) (headers : list (string * string)) (timeout : Z)
| Invoked (argv : list string).

(** Answers of the service and of the child process; both may depend on
    the events so far. *)
Record world : Type := {
  http_get : list event -> string -> list (string * string) -> Z -> http_outcome;
  run_process : list event -> list string -> proc_outcome
}.

(** ** The effect monad

    A computation reads the world and the history and gives a result with
    the events it emitted, oldest first. *)
Definition M (A : Type) : Type := world -> list event -> result A * list event.

Definition ret {A} (a : A) : M A := fun _ _ => (Return a, []).

Definition raise {A} (e : exn) : M A := fun _ _ => (Raise e, []).

Definition bind {A B} (m : M A) (f : A -> M B) : M B :=
  fun w h =>
    match m w h with
    | (Return a, es) =>
        let '(r, es') := f a w (h ++ es) in (r, es ++ es')
    | (Raise e, es) => (Raise e, es)
    end.

(** [try: m  except: handler]; [handler e = None] when no clause matches
    [e], which then propagates. *)
Definition try_except {A} (m : M A) (handler : exn -> option (M A)) : M A :=
  fun w h =>
    match m w h with
    | (Return a, es) => (Return a, es)
    | (Raise e, es) =>
        match handler e with
        | Some k => let '(r, es') := k w (h ++ es) in (r, es ++ es')
        | None => (Raise e, es)
        end
    end.

(** An operation on values that may raise and emits nothing. *)
Definition lift {A} (r : result A) : M A := fun _ _ => (r, []).

(** The monad operations behind stdpp's [x ← m; k] and [m;; k]. *)
#[global] Instance M_ret : MRet M := @ret.
#[global] Instance M_bind : MBind M := fun A B f m => bind m f.

Definition print (line : string) : M unit :=
  fun _ _ => (Return tt, [Printed line]).

(** [requests.get(url, headers=headers, timeout=timeout)] *)
Definition requests_get (url : string) (headers : list (string * string))
    (timeout : Z) : M response :=
  fun w h =>
    match http_get w h url headers timeout with
    | Responded r => (Return r, [Requested url headers timeout])
    | RequestRaised e => (Raise e, [Requested url headers timeout])
    end.

(** [resp.json()] *)
Definition response_json (resp : response) : M pyval :=
  match json resp with
  | inl v => ret v
  | inr e => raise e
  end.

(** The argument list handed to the child: every element must be a [str]. *)
Fixpoint as_argv (args : list pyval) : option (list string) :=
  match args with
  | [] => Some []
  | PStr s :: rest =>
      match as_argv rest with
      | Some l => Some (s :: l)
      | None => None
      end
  | _ :: _ => None
  end.

(** [subprocess.run(args, check=True, capture_output=True, text=True)].
    An argument that is not a string is refused with [TypeError] before
    anything is launched; [text=True] decodes the captured output once the
    child has exited and raises [UnicodeDecodeError] when it does not
    decode; after that [check=True] turns a non-zero exit status into
    [CalledProcessError]. *)
Definition subprocess_run (args : list pyval) : M unit :=
  match as_argv args with
  | None => raise TypeError
  | Some argv =>
      fun w h =>
        match run_process w h argv with
        | Exited rc err =>
            (if rc =? 0 then Return tt else Raise (CalledProcessError rc err),
             [Invoked argv])
        | ExitedUndecodable _ =>
            (Raise (OtherException "UnicodeDecodeError"), [Invoked argv])
        | LaunchFailed e => (Raise e, [Invoked argv])
        end
  end.

(** [s.rstrip("/")]: every trailing slash goes. *)
Fixpoint rstrip_slash (s : string) : string :=
  match s with
  | EmptyString => EmptyString
  | String c rest =>
      match rstrip_slash rest with
      | EmptyString => if Ascii.eqb c "/"%char then EmptyString else String c EmptyString
      | r => String c r
      end
  end.

(** ** The script *)

(** Entity ID -> position name mapping, in the order of the dict literal. *)
Definition ENTITIES : list (string * string) :=
  [("person.harper", "harper")].

(** Path to position binary *)
Definition POSITION_BIN : string := "position".

(** Fetch entity state from Home Assistant. *)
Definition get_entity_state (hass_url hass_token entity_id : string) : M pyval :=
  let url := hass_url +:+ "/api/states/" +:+ entity_id in
  let headers := [("Authorization", "Bearer " +:+ hass_token)] in
  try_except
    (resp ← requests_get url headers 10;
     if negb (status_code resp =? 200) then
       print ("Failed to fetch " +:+ entity_id +:+ ": HTTP " +:+ pretty (status_code resp));;
       mret PNone
     else
       response_json resp)
    (fun e =>
       if is_RequestException e then
         Some (print ("Request error for " +:+ entity_id +:+ ": " +:+ exn_str e);;
               mret PNone)
       else None).

(** [load_dotenv(path)] with the default [override=False]: a variable the
    environment already has keeps its value.  The file is given by the
    assignments in it, [None] when there is no such file. *)
Definition load_dotenv (file : option (gmap string string))
    (environ : gmap string string) : gmap string string :=
  match file with
  | Some assignments => environ ∪ assignments
  | None => environ
  end.

(** Truth of [os.environ.get(name)]: [None] and the empty string are false. *)
Definition env_truthy (value : option string) : bool :=
  match value with
  | Some s => negb (String.eqb s "")
  | None => false
  end.

Section Script.

(** [repr] of a [str] (quoting and escapes follow the Unicode database);
    the script reaches it only for a string inside a list or a dict that it
    renders. *)
Variable str_repr : string -> string.

Fixpoint py_repr (v : pyval) : string :=
  match v with
  | PNone => "None"
  | PBool b => if b then "True" else "False"
  | PInt z => pretty z
  | PFloat d => d
  | PStr s => str_repr s
  | PList l => "[" +:+ String.concat ", " (map py_repr l) +:+ "]"
  | PDict d =>
      "{" +:+ String.concat ", "
                (map (fun kv => str_repr (fst kv) +:+ ": " +:+ py_repr (snd kv)) d)
          +:+ "}"
  end.

(** [str(v)], which is also what [{v}] in an f-string renders. *)
Definition py_str (v : pyval) : string :=
  match v with
  | PStr s => s
  | _ => py_repr v
  end.

(** Sync a single entity to position. Returns True on success. *)
Definition sync_entity (hass_url hass_token entity_id position_name : string) : M bool :=
  state ← get_entity_state hass_url hass_token entity_id;
  if negb (truthy state) then mret false
  else
    attrs ← lift (py_get state "attributes" (PDict []));
    lat ← lift (py_get attrs "latitude" PNone);
    lng ← lift (py_get attrs "longitude" PNone);
    if is_None lat || is_None lng then
      status ← lift (py_get state "state" (PStr "unknown"));
      print ("No location for " +:+ entity_id +:+ " (state: " +:+ py_str status +:+ ")");;
      mret false
    else
      friendly_name ← lift (py_get attrs "friendly_name" PNone);
      let label := if truthy friendly_name then friendly_name else PStr entity_id in
      try_except
        (subprocess_run
           [PStr POSITION_BIN; PStr "add"; PStr position_name;
            PStr "--lat"; PStr (py_str lat);
            PStr "--lng"; PStr (py_str lng);
            PStr "--label"; label];;
         print ("Synced " +:+ position_name +:+ ": " +:+ py_str label
                +:+ " (" +:+ py_str lat +:+ ", " +:+ py_str lng +:+ ")");;
         mret true)
        (fun e =>
           match e with
           | CalledProcessError _ stderr =>
               Some (print ("Failed to add position for " +:+ position_name
                            +:+ ": " +:+ stderr);;
                     mret false)
           | FileNotFoundError =>
               Some (print ("position binary not found: " +:+ POSITION_BIN);;
                     mret false)
           | _ => None
           end).

(** The loop of [main] over [ENTITIES.items()], [success_count] threaded
    through. *)
Fixpoint sync_all (hass_url hass_token : string) (items : list (string * string))
    (success_count : nat) : M nat :=
  match items with
  | [] => mret success_count
  | (entity_id, position_name) :: rest =>
      ok ← sync_entity hass_url hass_token entity_id position_name;
      sync_all hass_url hass_token rest
        (if (ok : bool) then S success_count else success_count)
  end.

(** [main], for any entity mapping.  [script_env] is the dotenv file
    beside the script, [cwd_env] the one the second call, which names no
    path, finds; [os_environ] is the environment of the process.  Past the
    check both values are there, so the defaults below are never used. *)
Definition main_with (entities : list (string * string))
    (script_env cwd_env : option (gmap string string))
    (os_environ : gmap string string) : M Z :=
  let environ := load_dotenv cwd_env (load_dotenv script_env os_environ) in
  let hass_url := environ !! "HASS_URL" in
  let hass_token := environ !! "HASS_TOKEN" in
  if negb (env_truthy hass_url) || negb (env_truthy hass_token) then
    print "Error: HASS_URL and HASS_TOKEN must be set in .env or environment";;
    mret 1
  else
    let hass_url := rstrip_slash (default "" hass_url) in
    let hass_token := default "" hass_token in
    success_count ← sync_all hass_url hass_token entities 0%nat;
    print ("Synced " +:+ pretty success_count +:+ "/" +:+ pretty (length entities)
           +:+ " entities");;
    mret (if Nat.eqb success_count (length entities) then 0 else 1).

Definition main := main_with ENTITIES.

(** The value each attempted entity's [sync_entity] call ended with, in
    order; the list stops after a call that raised, as the loop does. *)
Fixpoint sync_outcomes (hass_url hass_token : string) (items : list (string * string))
    (w : world) (h : list event) : list (result bool) :=
  match items with
  | [] => []
  | (entity_id, position_name) :: rest =>
      let '(r, es) := sync_entity hass_url hass_token entity_id position_name w h in
      r :: match r with
           | Return _ => sync_outcomes hass_url hass_token rest w (h ++ es)
           | Raise _ => []
           end
  end.

End Script.

(** ** Observations on a run *)

Definition head_char (s : string) : option ascii :=
  match s with
  | String c _ => Some c
  | EmptyString => None
  end.

Fixpoint last_char (s : string) : option ascii :=
  match s with
  | EmptyString => None
  | String c rest =>
      match last_char rest with
      | Some c' => Some c'
      | None => Some c
      end
  end.

Fixpoint slashes (k : nat) : string :=
  match k with
  | O => EmptyString
  | S k' => String "/"%char (slashes k')
  end.

(** The request [get_entity_state] sends for an entity. *)
Definition states_url (hass_url entity_id : string) : string :=
  hass_url +:+ "/api/states/" +:+ entity_id.

Definition bearer (hass_token : string) : list (string * string) :=
  [("Authorization", "Bearer " +:+ hass_token)].

Definition fetch_event (hass_url hass_token entity_id : string) : event :=
  Requested (states_url hass_url entity_id) (bearer hass_token) 10.

Definition fetch_answer (w : world) (h : list event)
    (hass_url hass_token entity_id : string) : http_outcome :=
  http_get w h (states_url hass_url entity_id) (bearer hass_token) 10.

(** URLs requested and argument lists launched, oldest first. *)
Definition requests_of (es : list event) : list string :=
  omap (fun e => match e with Requested url _ _ => Some url | _ => None end) es.

Definition invocations_of (es : list event) : list (list string) :=
  omap (fun e => match e with Invoked argv => Some argv | _ => None end) es.

(** HTTP 200 with a parseable JSON body [v]. *)
Inductive fetch_ok : http_outcome -> pyval -> Prop :=
| fetch_ok_200 r v :
    status_code r = 200 -> json r = inl v -> fetch_ok (Responded r) v.

(** A failed fetch that line 46 catches: a status other than 200, a
    [RequestException] of [requests.get], a [JSONDecodeError] (or other
    [RequestException]) of [resp.json()]. *)
Inductive fetch_caught : http_outcome -> Prop :=
| fetch_caught_status r :
    status_code r <> 200 -> fetch_caught (Responded r)
| fetch_caught_transport e :
    is_RequestException e = true -> fetch_caught (RequestRaised e)
| fetch_caught_decode r e :
    status_code r = 200 -> json r = inr e -> is_RequestException e = true ->
    fetch_caught (Responded r).

(** A failed fetch that line 46 does not catch: [requests.get] or
    [resp.json()] raised [e], which is no [RequestException]. *)
Inductive fetch_escapes : http_outcome -> exn -> Prop :=
| fetch_escapes_get e :
    is_RequestException e = false -> fetch_escapes (RequestRaised e) e
| fetch_escapes_json r e :
    status_code r = 200 -> json r = inr e -> is_RequestException e = false ->
    fetch_escapes (Responded r) e.

(** The argument list of the position recorder. *)
Definition recorder_argv (position_name lat lng label : string) : list string :=
  [POSITION_BIN; "add"; position_name; "--lat"; lat; "--lng"; lng; "--label"; label].

(** Lines 67-91 read as a function of what the launch did: the value
    [sync_entity] ends with and the events it adds, rendered coordinates and
    label given. *)
Definition recorder_result (position_name lat lng label : string)
    (launch : proc_outcome) : result bool * list event :=
  let argv := recorder_argv position_name lat lng label in
  let failed stderr :=
    (Return false,
     [Invoked argv;
      Printed ("Failed to add position for " +:+ position_name +:+ ": " +:+ stderr)]) in
  match launch with
  | Exited rc stderr =>
      if rc =? 0 then
        (Return true,
         [Invoked argv;
          Printed ("Synced " +:+ position_name +:+ ": " +:+ label
                   +:+ " (" +:+ lat +:+ ", " +:+ lng +:+ ")")])
      else failed stderr
  | ExitedUndecodable _ => (Raise (OtherException "UnicodeDecodeError"), [Invoked argv])
  | LaunchFailed (CalledProcessError _ stderr) => failed stderr
  | LaunchFailed FileNotFoundError =>
      (Return false,
       [Invoked argv; Printed ("position binary not found: " +:+ POSITION_BIN)])
  | LaunchFailed e => (Raise e, [Invoked argv])
  end.




Definition summary_line (success total : nat) : string :=
  "Synced " +:+ pretty success +:+ "/" +:+ pretty total +:+ " entities".

(** A printed line that opens like the summary closes like a per-entity
    success line; requests and launches are not printed lines. *)
Definition entity_event (e : event) : Prop :=
  match e with
  | Printed line => head_char line = Some "S"%char -> last_char line = Some ")"%char
  | _ => True
  end.

(** What C1 asks of a run of [main] with [s] successes among [n] entities:
    the exit code, and the summary as the one line of that form. *)
Definition summary_contract (s n : nat) (run : result Z * list event) : Prop :=
  exists es,
    run = (Return (if decide (s = n) then 0 else 1), es ++ [Printed (summary_line s n)]) /\
    forall k m, Printed (summary_line k m) ∉ es.

Definition config_error_line : string :=
  "Error: HASS_URL and HASS_TOKEN must be set in .env or environment".

Definition returned {A} (r : result A) : bool :=
  match r with Return _ => true | Raise _ => false end.

Definition succeeded (r : result bool) : bool :=
  match r with Return true => true | _ => false end.

(** Number of entities whose sync succeeded. *)
Definition successes (outcomes : list (result bool)) : nat :=
  length (filter (fun r => succeeded r = true) outcomes).

(** The configuration [main] works with once both dotenv files are read,
    and the two values as the loop receives them. *)
Definition loaded_environ (script_env cwd_env : option (gmap string string))
    (os_environ : gmap string string) : gmap string string :=
  load_dotenv cwd_env (load_dotenv script_env os_environ).

Definition config_valid (environ : gmap string string) : bool :=
  env_truthy (environ !! "HASS_URL") && env_truthy (environ !! "HASS_TOKEN").

Definition base_url (environ : gmap string string) : string :=
  rstrip_slash (default "" (environ !! "HASS_URL")).

Definition token (environ : gmap string string) : string :=
  default "" (environ !! "HASS_TOKEN").

(** [attributes.<key>] of a state record, when the record has it. *)
Definition attribute (state : pyval) (key : string) : option pyval :=
  match state with
  | PDict d =>
      match dict_find d "attributes" with
      | Some (PDict a) => dict_find a key
      | _ => None
      end
  | _ => None
  end.

(** A field that is not there, or is [null]: what [x.get(key) is None] sees. *)
Definition missing (field : option pyval) : bool :=
  match field with
  | None | Some PNone => true
  | Some _ => false
  end.


(** [attributes] is an object, or the record has no such field. *)
Definition attributes_usable (state : pyval) : bool :=
  match state with
  | PDict d =>
      match dict_find d "attributes" with
      | None | Some (PDict _) => true
      | Some _ => false
      end
  | _ => false
  end.

(** [attrs.get("friendly_name") or entity_id] *)
Definition label_of (state : pyval) (entity_id : string) : pyval :=
  match attribute state "friendly_name" with
  | Some v => if truthy v then v else PStr entity_id
  | None => PStr entity_id
  end.

(** Two worlds whose service gives the same answer to the same request,
    whatever happened before; their recorders may differ. *)
Definition same_upstream (w1 w2 : world) : Prop :=
  forall h1 h2 url headers timeout,
    http_get w1 h1 url headers timeout = http_get w2 h2 url headers timeout.

(** Two worlds whose recorder ends the same way on the same argument
    list. *)
Definition same_recorder (w1 w2 : world) : Prop :=
  forall h1 h2 argv, run_process w1 h1 argv = run_process w2 h2 argv.

(** A computation whose value and events are the same in any two worlds
    whose service and recorder answer alike. *)
Definition stable {A} (m : M A) : Prop :=
  forall w1 h1 w2 h2,
    same_upstream w1 w2 /\ same_recorder w1 w2 -> m w1 h1 = m w2 h2.




(** ** Claims of the specification that the code does not meet as worded *)


(** C1 as worded: every run that reaches the entity loop prints the summary
    and returns the exit code that goes with the counts. *)
Definition summary_claim (str_repr : string -> string)
    (entities : list (string * string))
    (script_env cwd_env : option (gmap string string))
    (os_environ : gmap string string) (w : world) (h : list event) : Prop :=
  let environ := loaded_environ script_env cwd_env os_environ in
  config_valid environ = true ->
  summary_contract
    (successes (sync_outcomes str_repr (base_url environ) (token environ) entities w h))
    (length entities)
    (main_with str_repr entities script_env cwd_env os_environ w h).

(** C3 as worded: the parsed record on HTTP 200 with a parseable body,
    [None] for everything else, never an exception. *)
Definition no_data_claim (hass_url hass_token entity_id : string)
    (w : world) (h : list event) : Prop :=
  let answer := fetch_answer w h hass_url hass_token entity_id in
  let r := (get_entity_state hass_url hass_token entity_id w h).1 in
  (forall v, fetch_ok answer v -> r = Return v) /\
  ((forall v, ~ fetch_ok answer v) -> r = Return PNone) /\
  (forall e, r <> Raise e).



(** C5 as worded: in every run each entity is requested, once, in order. *)
Definition fetch_claim (str_repr : string -> string)
    (entities : list (string * string))
    (script_env cwd_env : option (gmap string string))
    (os_environ : gmap string string) (w : world) (h : list event) : Prop :=
  let environ := loaded_environ script_env cwd_env os_environ in
  config_valid environ = true ->
  requests_of (main_with str_repr entities script_env cwd_env os_environ w h).2
  = states_url (base_url environ) <$> entities.*1.


(** C7 as worded: the label is [friendly_name] when present, the entity id
    when absent. *)
Definition label_claim (str_repr : string -> string)
    (hass_url hass_token entity_id position_name : string)
    (w : world) (h : list event) (state : pyval) : Prop :=
  forall lat lng,
    fetch_ok (fetch_answer w h hass_url hass_token entity_id) state ->
    attribute state "latitude" = Some lat -> lat <> PNone ->
    attribute state "longitude" = Some lng -> lng <> PNone ->
    let argv_with :=
      recorder_argv position_name (py_str str_repr lat) (py_str str_repr lng) in
    let es := (sync_entity str_repr hass_url hass_token entity_id position_name w h).2 in
    (forall label,
        attribute state "friendly_name" = Some (PStr label) ->
        invocations_of es = [argv_with label]) /\
    (attribute state "friendly_name" = None -> invocations_of es = [argv_with entity_id]).

(** ** Sample inputs *)

(** [repr] of a string of plain letters and digits. *)
Definition ascii_repr (s : string) : string := "'" +:+ s +:+ "'".

Definition sample_environ : gmap string string :=
  {[ "HASS_URL" := "http://ha.local:8123/"; "HASS_TOKEN" := "secret" ]}.

Definition two_entities : list (string * string) :=
  [("person.harper", "harper"); ("device_tracker.car", "car")].

Definition located (friendly_name : pyval) : pyval :=
  PDict [("state", PStr "home");
         ("attributes",
          PDict [("latitude", PFloat "40.0"); ("longitude", PFloat "-73.9");
                 ("friendly_name", friendly_name)])].

Definition harper_state : pyval := located (PStr "Harper").


(** The service answers every request with HTTP 200 and [body]; every
    launch of the recorder does [launch]. *)
Definition answering (body : pyval) (launch : proc_outcome) : world :=
  {| http_get := fun _ _ _ _ => Responded {| status_code := 200; json := inl body |};
     run_process := fun _ _ => launch |}.

(** The first entity is known and located, any other gets HTTP 404. *)
Definition second_missing : world :=
  {| http_get := fun _ url _ _ =>
       if String.eqb url "http://ha.local:8123/api/states/person.harper" then
         Responded {| status_code := 200; json := inl harper_state |}
       else Responded {| status_code := 404;
                         json := inr (JSONDecodeError "Expecting value") |};
     run_process := fun _ _ => Exited 0 "" |}.

(** The recorder is on the path but may not be executed. *)
Definition not_executable : world :=
  answering harper_state (LaunchFailed (OtherException "PermissionError")).

(** The service answers with a list of states, as it does for the
    collection [/api/states]. *)
Definition all_states : world :=
  answering (PList [harper_state]) (Exited 0 "").

(** ** Further observations *)


(** The exception classes [sync_entity] has an [except] clause for. *)
Definition handled (e : exn) : bool :=
  match e with
  | CalledProcessError _ _ | FileNotFoundError => true
  | _ => false
  end.

(** Where an exception that leaves a sync comes from: the script's own
    use of a malformed payload, a fetch whose exception line 46 does not
    catch, a launch whose exception lines 86-91 do not catch, or the
    decoding of the recorder's output. *)
Inductive escape_origin (w : world) (e : exn) : Prop :=
| origin_payload :
    e = AttributeError \/ e = TypeError -> escape_origin w e
| origin_fetch h url headers timeout :
    fetch_escapes (http_get w h url headers timeout) e -> escape_origin w e
| origin_launch h argv :
    run_process w h argv = LaunchFailed e -> handled e = false -> escape_origin w e
| origin_decode h argv rc :
    run_process w h argv = ExitedUndecodable rc ->
    e = OtherException "UnicodeDecodeError" -> escape_origin w e.

Definition is_PStr (v : pyval) : bool :=
  match v with PStr _ => true | _ => false end.

(** The service answers every request with HTTP 503. *)
Definition unavailable : world :=
  {| http_get := fun _ _ _ _ =>
       Responded {| status_code := 503;
                    json := inr (JSONDecodeError "Expecting value") |};
     run_process := fun _ _ => Exited 0 "" |}.



(** HTTP 200 with a body nested deeper than the parser's recursion limit. *)
Definition too_deep : world :=
  {| http_get := fun _ _ _ _ =>
       Responded {| status_code := 200; json := inr (OtherException "RecursionError") |};
     run_process := fun _ _ => Exited 0 "" |}.

(** The token holds a character outside latin-1: the header cannot be
    encoded and [requests.get] raises before anything is sent. *)
Definition unencodable_token : world :=
  {| http_get := fun _ _ _ _ => RequestRaised (OtherException "UnicodeEncodeError");
     run_process := fun _ _ => Exited 0 "" |}.

(** HTTP 200 with a body that is not JSON. *)
Definition not_json : world :=
  {| http_get := fun _ _ _ _ =>
       Responded {| status_code := 200;
                    json := inr (JSONDecodeError "Expecting value") |};
     run_process := fun _ _ => Exited 0 "" |}.

(** * Properties *)

Section Properties.

Variable str_repr : string -> string.

Lemma run_bind {A B} (m : M A) (f : A -> M B) w h :
  (x ← m; f x) w h =
    match m w h with
    | (Return a, es) => let '(r, es') := f a w (h ++ es) in (r, es ++ es')
    | (Raise e, es) => (Raise e, es)
    end.
Proof. reflexivity. Qed.

Lemma run_ret {A} (a : A) w h : (mret a : M A) w h = (Return a, []).
Proof. reflexivity. Qed.

Lemma run_lift_bind {A B} (a : A) (f : A -> M B) w h :
  (x ← lift (Return a); f x) w h = f a w h.
Proof.
  rewrite run_bind. unfold lift. rewrite app_nil_r.
  destruct (f a w h); reflexivity.
Qed.

Lemma run_lift_raise {A B} e (f : A -> M B) w h :
  (x ← lift (Raise e); f x) w h = (Raise e, []).
Proof. reflexivity. Qed.

Lemma run_print_bind {B} line (k : M B) w h :
  (print line;; k) w h =
    let '(r, es) := k w (h ++ [Printed line]) in (r, Printed line :: es).
Proof. reflexivity. Qed.

Lemma get_entity_state_run u t id w h :
  get_entity_state u t id w h =
    let caught e :=
      (Return PNone,
       [fetch_event u t id;
        Printed ("Request error for " +:+ id +:+ ": " +:+ exn_str e)]) in
    let passed e :=
      if is_RequestException e then caught e else (Raise e, [fetch_event u t id]) in
    match fetch_answer w h u t id with
    | Responded r =>
        if status_code r =? 200 then
          match json r with
          | inl v => (Return v, [fetch_event u t id])
          | inr e => passed e
          end
        else
          (Return PNone,
           [fetch_event u t id;
            Printed ("Failed to fetch " +:+ id +:+ ": HTTP " +:+ pretty (status_code r))])
    | RequestRaised e => passed e
    end.
Proof.
  unfold get_entity_state, try_except, fetch_answer, fetch_event, states_url, bearer.
  rewrite run_bind. unfold requests_get.
  destruct (http_get w h _ _ 10) as [r|e].
  - destruct (status_code r =? 200) eqn:Hs; cbn [negb]; [|reflexivity].
    unfold response_json. destruct (json r) as [v|e]; [reflexivity|].
    unfold raise. cbv beta iota zeta. by destruct (is_RequestException e).
  - cbv beta iota zeta. by destruct (is_RequestException e).
Qed.

(** An exception of the fetch goes through [sync_entity] as it is. *)
Lemma sync_entity_fetch_raised u t id name w h e es :
  get_entity_state u t id w h = (Raise e, es) ->
  sync_entity str_repr u t id name w h = (Raise e, es).
Proof. intros Hget. unfold sync_entity. by rewrite run_bind, Hget. Qed.

Lemma sync_entity_falsy u t id name w h v es :
  get_entity_state u t id w h = (Return v, es) ->
  truthy v = false ->
  sync_entity str_repr u t id name w h = (Return false, es).
Proof.
  intros Hget Hv. unfold sync_entity. rewrite run_bind, Hget, Hv. cbn [negb].
  rewrite run_ret. by rewrite app_nil_r.
Qed.

Lemma sync_entity_not_object u t id name w h v es :
  get_entity_state u t id w h = (Return v, es) ->
  truthy v = true ->
  (forall d, v <> PDict d) ->
  sync_entity str_repr u t id name w h = (Raise AttributeError, es).
Proof.
  intros Hget Hv Hd. unfold sync_entity. rewrite run_bind, Hget, Hv. cbn [negb].
  destruct v as [| | | | | |d]; cbn [py_get];
    try (by rewrite run_lift_raise, app_nil_r).
  by destruct (Hd d).
Qed.

Lemma dict_get_find d key dflt :
  dict_get d key dflt = default dflt (dict_find d key).
Proof. unfold dict_get. by destruct (dict_find d key). Qed.

Lemma is_None_missing a key :
  is_None (dict_get a key PNone) = missing (dict_find a key).
Proof. unfold dict_get. destruct (dict_find a key) as [[]|]; reflexivity. Qed.

(** What the code does once the state is a non-empty object. *)
Lemma sync_entity_object u t id name w h d es :
  get_entity_state u t id w h = (Return (PDict d), es) ->
  d <> [] ->
  sync_entity str_repr u t id name w h =
    match dict_get d "attributes" (PDict []) with
    | PDict a =>
        let lat := dict_get a "latitude" PNone in
        let lng := dict_get a "longitude" PNone in
        let fn := dict_get a "friendly_name" PNone in
        if is_None lat || is_None lng then
          (Return false,
           es ++ [Printed ("No location for " +:+ id +:+ " (state: "
                           +:+ py_str str_repr (dict_get d "state" (PStr "unknown"))
                           +:+ ")")])
        else
          match (if truthy fn then fn else PStr id) with
          | PStr label =>
              let lat := py_str str_repr lat in
              let lng := py_str str_repr lng in
              let launch := run_process w (h ++ es) (recorder_argv name lat lng label) in
              let '(r, es') := recorder_result name lat lng label launch in
              (r, es ++ es')
          | _ => (Raise TypeError, es)
          end
    | _ => (Raise AttributeError, es)
    end.
Proof.
  intros Hget Hd. unfold sync_entity. rewrite run_bind, Hget.
  assert (truthy (PDict d) = true) as -> by (by destruct d).
  cbn [negb py_get]. rewrite run_lift_bind.
  destruct (dict_get d "attributes" (PDict [])) as [| | | | | |a]; cbn [py_get];
    try (by rewrite run_lift_raise, app_nil_r).
  rewrite !run_lift_bind. cbv zeta.
  destruct (is_None (dict_get a "latitude" PNone) || is_None (dict_get a "longitude" PNone)).
  { rewrite ?run_lift_bind, run_print_bind, run_ret. reflexivity. }
  rewrite ?run_lift_bind.
  generalize (if truthy (dict_get a "friendly_name" PNone)
              then dict_get a "friendly_name" PNone else PStr id).
  intros label. unfold try_except. rewrite run_bind. unfold subprocess_run. cbn [as_argv].
  destruct label as [| | | |label| |];
    try (unfold raise; cbv beta iota; by rewrite app_nil_r).
  unfold recorder_result.
  fold (recorder_argv name (py_str str_repr (dict_get a "latitude" PNone))
          (py_str str_repr (dict_get a "longitude" PNone)) label).
  destruct (run_process w (h ++ es) _) as [rc err|rc|e].
  - destruct (rc =? 0); reflexivity.
  - reflexivity.
  - destruct e; reflexivity.
Qed.

Lemma fetch_ok_inv answer v :
  fetch_ok answer v ->
  exists r, answer = Responded r /\ status_code r = 200 /\ json r = inl v.
Proof. destruct 1 as [r v H200 Hjson]. eauto. Qed.

Lemma get_entity_state_ok u t id w h v :
  fetch_ok (fetch_answer w h u t id) v ->
  get_entity_state u t id w h = (Return v, [fetch_event u t id]).
Proof.
  intros (r & Hans & H200 & Hjson)%fetch_ok_inv.
  rewrite get_entity_state_run, Hans, H200, Hjson. reflexivity.
Qed.

Lemma get_entity_state_caught u t id w h :
  fetch_caught (fetch_answer w h u t id) ->
  exists line,
    get_entity_state u t id w h = (Return PNone, [fetch_event u t id; Printed line]).
Proof.
  intros Hcaught. rewrite get_entity_state_run. cbv zeta.
  destruct Hcaught as [r Hstatus|e He|r e H200 Hjson He].
  - apply Z.eqb_neq in Hstatus as ->. by eexists.
  - rewrite He. by eexists.
  - rewrite H200, Hjson, He. by eexists.
Qed.

Lemma get_entity_state_escaped u t id w h e :
  fetch_escapes (fetch_answer w h u t id) e ->
  get_entity_state u t id w h = (Raise e, [fetch_event u t id]).
Proof.
  intros Hescapes. rewrite get_entity_state_run. cbv zeta.
  destruct Hescapes as [e He|r e H200 Hjson He].
  - by rewrite He.
  - by rewrite H200, Hjson, He.
Qed.

(** The three ways a fetch can go. *)
Lemma fetch_cases answer :
  (exists v, fetch_ok answer v) \/ fetch_caught answer \/ (exists e, fetch_escapes answer e).
Proof.
  destruct answer as [r|e].
  - destruct (decide (status_code r = 200)) as [H200|H200];
      [|right; left; by constructor].
    destruct (json r) as [v|e] eqn:Hjson; [left; exists v; by constructor|].
    destruct (is_RequestException e) eqn:He.
    + right. left. by eapply fetch_caught_decode.
    + right. right. exists e. by constructor.
  - destruct (is_RequestException e) eqn:He.
    + right. left. by constructor.
    + right. right. exists e. by constructor.
Qed.

(** C3, amended. [get_entity_state] returns the parsed JSON record when
    the answer is HTTP 200 with a parseable body; it returns [None] for a
    status other than 200, for a [RequestException] of [requests.get] and
    for a [JSONDecodeError] of [resp.json()]; it raises exactly when
    [requests.get] or [resp.json()] raises an exception that is not a
    [RequestException], and then that exception. *)
Theorem get_entity_state_contract u t id w h :
  let answer := fetch_answer w h u t id in
  let r := (get_entity_state u t id w h).1 in
  (forall v, fetch_ok answer v -> r = Return v) /\
  (fetch_caught answer -> r = Return PNone) /\
  (forall e, r = Raise e <-> fetch_escapes answer e).
Proof.
  cbv zeta. split; [|split].
  - intros v Hok. by rewrite (get_entity_state_ok _ _ _ _ _ _ Hok).
  - intros Hcaught. by destruct (get_entity_state_caught u t id w h Hcaught) as [line ->].
  - intros e. split; [|intros Hescapes; by rewrite (get_entity_state_escaped _ _ _ _ _ _ Hescapes)].
    destruct (fetch_cases (fetch_answer w h u t id)) as [[v Hok]|[Hcaught|[e' Hescapes]]].
    + by rewrite (get_entity_state_ok _ _ _ _ _ _ Hok).
    + by destruct (get_entity_state_caught u t id w h Hcaught) as [line ->].
    + rewrite (get_entity_state_escaped _ _ _ _ _ _ Hescapes). by intros [= <-].
Qed.

(** C10. HTTP 200 with a parseable but falsy body: [sync_entity] returns
    [False] at once; the request is the only event, so nothing is printed
    and the recorder is not invoked. *)
Theorem sync_entity_falsy_body u t id name w h v :
  fetch_ok (fetch_answer w h u t id) v ->
  truthy v = false ->
  sync_entity str_repr u t id name w h = (Return false, [fetch_event u t id]).
Proof.
  intros Hok Hv. eapply sync_entity_falsy; [|exact Hv].
  by apply get_entity_state_ok.
Qed.

Lemma attributes_usable_inv state :
  attributes_usable state = true ->
  exists d a, state = PDict d /\ dict_get d "attributes" (PDict []) = PDict a /\
    forall key, attribute state key = dict_find a key.
Proof.
  destruct state as [| | | | | |d]; try done. cbn [attributes_usable attribute].
  destruct (dict_find d "attributes") as [[| | | | | |a]|] eqn:Hfind; try done; intros _.
  - exists d, a. unfold dict_get. by rewrite Hfind.
  - exists d, []. unfold dict_get. by rewrite Hfind.
Qed.

Lemma truthy_dict d : truthy (PDict d) = true -> d <> [].
Proof. by destruct d. Qed.


Lemma attribute_inv state key v :
  attribute state key = Some v ->
  truthy state = true /\ attributes_usable state = true.
Proof.
  destruct state as [| | | | | |d]; try done. cbn [attribute attributes_usable].
  destruct d as [|kv d]; [done|].
  by destruct (dict_find (kv :: d) "attributes") as [[]|].
Qed.

Lemma missing_Some v : v <> PNone -> missing (Some v) = false.
Proof. by destruct v. Qed.

(** A record with both coordinates and a string label: the value and the
    events of [sync_entity] are those of the recorder step. *)
Lemma sync_entity_located u t id name w h state lat lng label :
  fetch_ok (fetch_answer w h u t id) state ->
  attribute state "latitude" = Some lat -> lat <> PNone ->
  attribute state "longitude" = Some lng -> lng <> PNone ->
  label_of state id = PStr label ->
  let lat := py_str str_repr lat in
  let lng := py_str str_repr lng in
  let launch := run_process w (h ++ [fetch_event u t id]) (recorder_argv name lat lng label) in
  sync_entity str_repr u t id name w h =
    ((recorder_result name lat lng label launch).1,
     fetch_event u t id :: (recorder_result name lat lng label launch).2).
Proof.
  intros Hok Hlat Hlat' Hlng Hlng' Hlabel.
  destruct (attribute_inv _ _ _ Hlat) as [Htruthy Husable].
  apply attributes_usable_inv in Husable as (d & a & -> & Hattrs & Hattr).
  rewrite (sync_entity_object u t id name w h d [fetch_event u t id]);
    [|by apply get_entity_state_ok|by apply truthy_dict].
  rewrite Hattrs. cbv zeta. rewrite !is_None_missing, <- !Hattr, Hlat, Hlng.
  rewrite !missing_Some by done. cbn [orb].
  unfold label_of in Hlabel.
  unfold dict_get. rewrite <- !Hattr, Hlat, Hlng.
  destruct (attribute (PDict d) "friendly_name") as [fn|]; cbn [truthy].
  - rewrite Hlabel. by destruct (recorder_result _ _ _ _ _).
  - injection Hlabel as <-. by destruct (recorder_result _ _ _ _ _).
Qed.

Lemma recorder_result_invocations name lat lng label launch :
  invocations_of (recorder_result name lat lng label launch).2
  = [recorder_argv name lat lng label].
Proof.
  unfold recorder_result. destruct launch as [rc err|rc|e].
  - by destruct (rc =? 0).
  - done.
  - by destruct e.
Qed.

Lemma sync_entity_invocations u t id name w h state lat lng label :
  fetch_ok (fetch_answer w h u t id) state ->
  attribute state "latitude" = Some lat -> lat <> PNone ->
  attribute state "longitude" = Some lng -> lng <> PNone ->
  label_of state id = PStr label ->
  invocations_of (sync_entity str_repr u t id name w h).2
  = [recorder_argv name (py_str str_repr lat) (py_str str_repr lng) label].
Proof.
  intros Hok Hlat Hlat' Hlng Hlng' Hlabel.
  rewrite (sync_entity_located _ _ _ _ _ _ _ _ _ _ Hok Hlat Hlat' Hlng Hlng' Hlabel).
  cbn [snd]. apply recorder_result_invocations.
Qed.


(** C7, amended. With both coordinates present, the label passed to the
    recorder is [attributes.friendly_name] when that field is a non-empty
    string, and the entity id when the field is absent or falsy (empty
    string, null, zero, empty container). *)
Theorem label_resolution u t id name w h state lat lng :
  fetch_ok (fetch_answer w h u t id) state ->
  attribute state "latitude" = Some lat -> lat <> PNone ->
  attribute state "longitude" = Some lng -> lng <> PNone ->
  let argv_with := recorder_argv name (py_str str_repr lat) (py_str str_repr lng) in
  let es := (sync_entity str_repr u t id name w h).2 in
  (forall label,
      attribute state "friendly_name" = Some (PStr label) -> label <> "" ->
      invocations_of es = [argv_with label]) /\
  ((attribute state "friendly_name" = None \/
    exists fn, attribute state "friendly_name" = Some fn /\ truthy fn = false) ->
   invocations_of es = [argv_with id]).
Proof.
  intros Hok Hlat Hlat' Hlng Hlng'. cbv zeta. split.
  - intros label Hfn Hne. eapply sync_entity_invocations; try done.
    unfold label_of. rewrite Hfn. cbn [truthy].
    by destruct (String.eqb_spec label "").
  - intros Hfn. eapply sync_entity_invocations; try done.
    unfold label_of. destruct Hfn as [->|(fn & -> & ->)]; done.
Qed.

(** ** Shape of the events of one entity *)

Lemma last_char_app a b :
  last_char (a +:+ b) =
    match last_char b with
    | Some c => Some c
    | None => last_char a
    end.
Proof.
  induction a as [|c a IH].
  - change ("" +:+ b) with b. by destruct (last_char b).
  - change (String c a +:+ b) with (String c (a +:+ b)). cbn [last_char].
    rewrite IH. by destruct (last_char b), (last_char a).
Qed.

Lemma summary_line_not_entity_event k m : ~ entity_event (Printed (summary_line k m)).
Proof.
  unfold entity_event, summary_line. intros H.
  specialize (H eq_refl). rewrite !last_char_app in H. cbn [last_char] in H.
  discriminate H.
Qed.

Ltac entity_events :=
  repeat (apply Forall_cons; split); try apply Forall_nil; cbn [entity_event];
  first [ exact I
        | intros _; assumption
        | let H := fresh in intros H; vm_compute in H; discriminate H ].

Lemma get_entity_state_shape u t id w h :
  exists r log,
    get_entity_state u t id w h = (r, fetch_event u t id :: log) /\
    requests_of log = [] /\ invocations_of log = [] /\ Forall entity_event log /\
    (log = [] \/ r = Return PNone).
Proof.
  destruct (fetch_cases (fetch_answer w h u t id)) as [[v Hok]|[Hcaught|[e Hescapes]]].
  - exists (Return v), []. rewrite (get_entity_state_ok _ _ _ _ _ _ Hok).
    repeat split; auto.
  - rewrite get_entity_state_run. cbv zeta.
    destruct Hcaught as [r Hstatus|e He|r e H200 Hjson He].
    + apply Z.eqb_neq in Hstatus as ->.
      eexists _, [_]. repeat split; auto. entity_events.
    + rewrite He. eexists _, [_]. repeat split; auto. entity_events.
    + rewrite H200, Hjson, He. eexists _, [_]. repeat split; auto. entity_events.
  - exists (Raise e), []. rewrite (get_entity_state_escaped _ _ _ _ _ _ Hescapes).
    repeat split; auto.
Qed.

Lemma recorder_result_shape name lat lng label launch :
  requests_of (recorder_result name lat lng label launch).2 = [] /\
  Forall entity_event (recorder_result name lat lng label launch).2.
Proof.
  assert (last_char ("Synced " +:+ name +:+ ": " +:+ label +:+ " (" +:+ lat
                     +:+ ", " +:+ lng +:+ ")") = Some ")"%char) as Hlast.
  { rewrite !last_char_app. reflexivity. }
  unfold recorder_result. destruct launch as [rc err|rc|e].
  - destruct (rc =? 0); (split; [done|]); entity_events.
  - split; [done|]. entity_events.
  - destruct e; (split; [done|]); entity_events.
Qed.

(** Every run of [sync_entity] opens with the one request for its entity;
    what follows holds no request and no line of the summary's form. *)
Lemma sync_entity_shape u t id name w h :
  exists rest,
    (sync_entity str_repr u t id name w h).2 = fetch_event u t id :: rest /\
    requests_of rest = [] /\ Forall entity_event rest.
Proof.
  destruct (get_entity_state_shape u t id w h)
    as ([v|e] & log & Hget & Hreq & _ & Hlog & Hcases).
  2:{ exists log. by rewrite (sync_entity_fetch_raised _ _ _ _ _ _ _ _ Hget). }
  destruct (truthy v) eqn:Hv.
  2:{ exists log. by rewrite (sync_entity_falsy _ _ _ _ _ _ _ _ Hget Hv). }
  destruct Hcases as [->|[= ->]]; [|done].
  destruct v as [| | | | | |d].
  1-6: exists []; by rewrite (sync_entity_not_object _ _ _ _ _ _ _ _ Hget Hv).
  rewrite (sync_entity_object _ _ _ _ _ _ _ _ Hget (truthy_dict _ Hv)).
  destruct (dict_get d "attributes" (PDict [])) as [| | | | | |a];
    try (by exists []).
  cbv zeta. destruct (_ || _).
  { eexists [_]. split; [done|]. split; [done|]. entity_events. }
  destruct (if truthy _ then _ else _) as [| | | |label| |]; try (by exists []).
  destruct (recorder_result_shape name
              (py_str str_repr (dict_get a "latitude" PNone))
              (py_str str_repr (dict_get a "longitude" PNone)) label
              (run_process w (h ++ [fetch_event u t id])
                 (recorder_argv name (py_str str_repr (dict_get a "latitude" PNone))
                    (py_str str_repr (dict_get a "longitude" PNone)) label)))
    as [Hreq' Hlog'].
  destruct (recorder_result _ _ _ _ _) as [r es']. by exists es'.
Qed.

(** ** The loop *)

Lemma successes_cons r outcomes :
  successes (r :: outcomes) = ((if succeeded r then 1 else 0) + successes outcomes)%nat.
Proof. unfold successes. rewrite filter_cons. by destruct (succeeded r). Qed.

Lemma sync_all_run u t items : forall c w h,
  let run := sync_all str_repr u t items c w h in
  let outcomes := sync_outcomes str_repr u t items w h in
  Forall entity_event run.2 /\
  requests_of run.2 = states_url u <$> take (length outcomes) items.*1 /\
  (forallb returned outcomes = true ->
   run.1 = Return (c + successes outcomes)%nat /\ length outcomes = length items).
Proof.
  induction items as [|[id name] items IH]; intros c w h; cbv zeta.
  { cbn. rewrite Nat.add_0_r. by repeat split. }
  cbn [sync_all sync_outcomes]. rewrite run_bind.
  destruct (sync_entity_shape u t id name w h) as (rest & Hes & Hreq & Hlog).
  destruct (sync_entity str_repr u t id name w h) as [[ok|e] es]; cbn [snd] in Hes; subst es.
  - specialize (IH (if ok then S c else c) w (h ++ fetch_event u t id :: rest)).
    cbv zeta in IH. destruct IH as (IHlog & IHreq & IHret).
    destruct (sync_all str_repr u t items _ w _) as [r es'].
    cbn [fst snd] in *. split; [|split].
    + constructor; [done|]. by apply Forall_app.
    + cbn [length take fmap list_fmap fst]. unfold requests_of in *.
      rewrite (omap_app _ (_ :: _)). cbn [omap list_omap fetch_event].
      fold (omap (λ e, match e with Requested url _ _ => Some url | _ => None end) rest).
      by rewrite Hreq, IHreq.
    + cbn [forallb returned andb]. intros Hall. destruct (IHret Hall) as [-> Hlen].
      rewrite successes_cons. cbn [length succeeded]. split; [|by rewrite Hlen].
      f_equal. destruct ok; lia.
  - cbn [fst snd length take]. split; [|split].
    + by constructor.
    + unfold requests_of in *. cbn [omap list_omap fetch_event].
      fold (omap (λ e, match e with Requested url _ _ => Some url | _ => None end) rest).
      by rewrite Hreq.
    + done.
Qed.

(** ** [main] *)

Lemma main_run entities se ce env w h :
  let environ := loaded_environ se ce env in
  main_with str_repr entities se ce env w h =
    if config_valid environ then
      let '(r, es) :=
        sync_all str_repr (base_url environ) (token environ) entities 0 w h in
      match r with
      | Return s =>
          (Return (if Nat.eqb s (length entities) then 0 else 1),
           es ++ [Printed (summary_line s (length entities))])
      | Raise e => (Raise e, es)
      end
    else (Return 1, [Printed config_error_line]).
Proof.
  cbv zeta. unfold main_with, config_valid.
  fold (loaded_environ se ce env).
  destruct (env_truthy (loaded_environ se ce env !! "HASS_URL")),
           (env_truthy (loaded_environ se ce env !! "HASS_TOKEN")); reflexivity.
Qed.

Lemma requests_of_app es es' : requests_of (es ++ es') = requests_of es ++ requests_of es'.
Proof. apply omap_app. Qed.

(** The requests of a whole run are those of its loop. *)
Lemma main_requests entities se ce env w h :
  let environ := loaded_environ se ce env in
  requests_of (main_with str_repr entities se ce env w h).2 =
    if config_valid environ then
      requests_of
        (sync_all str_repr (base_url environ) (token environ) entities 0 w h).2
    else [].
Proof.
  cbv zeta. rewrite main_run. destruct (config_valid _); [|done].
  destruct (sync_all _ _ _ _ _ _ _) as [[s|e] es]; cbn [snd]; [|done].
  rewrite requests_of_app. apply app_nil_r.
Qed.

(** C2. The service URL or the bearer token is missing or empty once the
    configuration is loaded: [main] prints the error line and returns 1;
    that line is the only event, so no request is sent and no process is
    launched. *)
Theorem main_config_missing entities se ce env w h :
  let environ := loaded_environ se ce env in
  environ !! "HASS_URL" = None \/ environ !! "HASS_URL" = Some "" \/
  environ !! "HASS_TOKEN" = None \/ environ !! "HASS_TOKEN" = Some "" ->
  let run := main_with str_repr entities se ce env w h in
  run = (Return 1, [Printed config_error_line]) /\
  requests_of run.2 = [] /\ invocations_of run.2 = [].
Proof.
  cbv zeta. intros Hmissing. rewrite main_run.
  assert (config_valid (loaded_environ se ce env) = false) as ->; [|done].
  unfold config_valid.
  destruct Hmissing as [-> | [-> | [-> | ->]]]; cbn [env_truthy];
    rewrite ?andb_false_r; done.
Qed.

(** C1, amended. A run that reaches the entity loop and in which no
    entity's sync raises: [main] returns 0 when the number of successful
    syncs equals the number of configured entities and 1 otherwise, and the
    last event is the line "Synced <s>/<n> entities", the only printed line
    of that form. *)
Theorem main_summary entities se ce env w h :
  let environ := loaded_environ se ce env in
  config_valid environ = true ->
  let outcomes :=
    sync_outcomes str_repr (base_url environ) (token environ) entities w h in
  forallb returned outcomes = true ->
  summary_contract (successes outcomes) (length entities)
    (main_with str_repr entities se ce env w h).
Proof.
  cbv zeta. intros Hvalid Hall. rewrite main_run, Hvalid.
  destruct (sync_all_run (base_url (loaded_environ se ce env))
              (token (loaded_environ se ce env)) entities 0%nat w h)
    as (Hlog & _ & Hret).
  destruct (Hret Hall) as [Hs _].
  destruct (sync_all _ _ _ _ _ _ _) as [r es]. cbn [fst snd] in *. subst r.
  exists es. split.
  - cbn [Nat.add]. generalize (successes
      (sync_outcomes str_repr (base_url (loaded_environ se ce env))
         (token (loaded_environ se ce env)) entities w h)). intros s.
    by destruct (Nat.eqb_spec s (length entities)); case_decide.
  - intros k m Hin. rewrite Forall_forall in Hlog.
    by apply (summary_line_not_entity_event k m), Hlog.
Qed.

Lemma states_url_inj base : Inj eq eq (states_url base).
Proof.
  intros x y H. unfold states_url in H.
  by do 2 apply String.app_inj in H.
Qed.

(** C5, amended. In a run that passes validation the requests are, in
    mapping order and without repetition, those of a leading part of the
    mapping; when no entity's sync raises (whatever each returned) they are
    those of the whole mapping, one request per entity. *)
Theorem main_fetches_in_order entities se ce env w h :
  let environ := loaded_environ se ce env in
  config_valid environ = true ->
  let outcomes :=
    sync_outcomes str_repr (base_url environ) (token environ) entities w h in
  let requests := requests_of (main_with str_repr entities se ce env w h).2 in
  let expected := states_url (base_url environ) <$> entities.*1 in
  requests `prefix_of` expected /\
  (forallb returned outcomes = true -> requests = expected) /\
  (NoDup entities.*1 -> NoDup requests).
Proof.
  cbv zeta. intros Hvalid. rewrite main_requests, Hvalid.
  destruct (sync_all_run (base_url (loaded_environ se ce env))
              (token (loaded_environ se ce env)) entities 0%nat w h)
    as (_ & -> & Hret).
  split; [|split].
  - rewrite fmap_take. apply prefix_take.
  - intros Hall. destruct (Hret Hall) as [_ ->].
    by rewrite <- (length_fmap fst), firstn_all.
  - intros Hnodup. apply (NoDup_fmap_2 _), (sublist_NoDup _ entities.*1); [done|].
    apply sublist_take.
Qed.

(** ** The service URL *)

Lemma rstrip_slash_spec s :
  exists k, s = rstrip_slash s +:+ slashes k /\ last_char (rstrip_slash s) <> Some "/"%char.
Proof.
  induction s as [|c s (k & Hs & Hlast)].
  { by exists 0%nat. }
  cbn [rstrip_slash]. destruct (rstrip_slash s) as [|c' r] eqn:Hr.
  - change ("" +:+ slashes k) with (slashes k) in Hs.
    destruct (Ascii.eqb_spec c "/"%char) as [->|Hc].
    + exists (S k). by rewrite Hs.
    + exists k. split; [by rewrite Hs|]. cbn. congruence.
  - exists k. split.
    + by rewrite Hs at 1.
    + cbn [last_char] in *. by destruct (last_char r).
Qed.

(** C8. Every request of a run goes to
    [<base>/api/states/<entity_id>] for a configured entity, where [<base>]
    is the configured service URL without its trailing slashes and does
    not end in a slash. *)
Theorem fetch_urls_normalised entities se ce env w h url :
  let environ := loaded_environ se ce env in
  url ∈ requests_of (main_with str_repr entities se ce env w h).2 ->
  exists configured k entity_id,
    environ !! "HASS_URL" = Some configured /\
    configured = base_url environ +:+ slashes k /\
    last_char (base_url environ) <> Some "/"%char /\
    entity_id ∈ entities.*1 /\
    url = base_url environ +:+ "/api/states/" +:+ entity_id.
Proof.
  cbv zeta. rewrite main_requests.
  destruct (config_valid _) eqn:Hvalid; [|by intros ?%elem_of_nil].
  destruct (sync_all_run (base_url (loaded_environ se ce env))
              (token (loaded_environ se ce env)) entities 0%nat w h)
    as (_ & -> & _).
  intros (entity_id & -> & Hin%subseteq_take)%list_elem_of_fmap.
  unfold config_valid in Hvalid. apply andb_prop in Hvalid as [Hurl _].
  unfold base_url.
  destruct (loaded_environ se ce env !! "HASS_URL") as [configured|]; [|done].
  destruct (rstrip_slash_spec configured) as (k & Hk & Hlast).
  exists configured, k, entity_id. by repeat split.
Qed.

(** ** Worlds in which no sync raises *)




(** ** Further properties of the script *)


(** X2. One call of [get_entity_state] sends one request, to
    [<hass_url>/api/states/<entity_id>] with the bearer token as its only
    header and a timeout of 10; it prints at most one line and launches
    nothing, whatever the answer. *)
Theorem get_entity_state_single_request u t id w h :
  exists log,
    (get_entity_state u t id w h).2
    = Requested (u +:+ "/api/states/" +:+ id) [("Authorization", "Bearer " +:+ t)] 10
        :: log /\
    requests_of log = [] /\ invocations_of log = [] /\ (length log <= 1)%nat.
Proof.
  destruct (get_entity_state_shape u t id w h)
    as (r & log & Hshape & Hreq & Hinv & _ & _).
  exists log. rewrite Hshape. cbn [snd].
  split; [reflexivity|]. split; [done|]. split; [done|].
  destruct (fetch_cases (fetch_answer w h u t id)) as [[v Hok]|[Hcaught|[e Hescapes]]].
  - rewrite (get_entity_state_ok _ _ _ _ _ _ Hok) in Hshape.
    simplify_eq. cbn. lia.
  - destruct (get_entity_state_caught u t id w h Hcaught) as [line Hget].
    rewrite Hget in Hshape. simplify_eq. cbn. lia.
  - rewrite (get_entity_state_escaped _ _ _ _ _ _ Hescapes) in Hshape.
    simplify_eq. cbn. lia.
Qed.

(** X3. What [get_entity_state] logs on a failure that it catches, before
    it returns [None]: the status code for an answer other than 200, the
    message of the exception for a [RequestException] of [requests.get]
    and for a [JSONDecodeError] of [resp.json()], each with the entity
    id. *)
Theorem get_entity_state_failure_log u t id w h :
  let answer := fetch_answer w h u t id in
  let run := get_entity_state u t id w h in
  (forall r, answer = Responded r -> status_code r <> 200 ->
     run = (Return PNone,
            [fetch_event u t id;
             Printed ("Failed to fetch " +:+ id +:+ ": HTTP " +:+ pretty (status_code r))])) /\
  (forall e, answer = RequestRaised e -> is_RequestException e = true ->
     run = (Return PNone,
            [fetch_event u t id;
             Printed ("Request error for " +:+ id +:+ ": " +:+ exn_str e)])) /\
  (forall r e, answer = Responded r -> status_code r = 200 -> json r = inr e ->
     is_RequestException e = true ->
     run = (Return PNone,
            [fetch_event u t id;
             Printed ("Request error for " +:+ id +:+ ": " +:+ exn_str e)])).
Proof.
  cbv zeta. rewrite get_entity_state_run. cbv zeta. split; [|split].
  - intros r -> Hstatus. by apply Z.eqb_neq in Hstatus as ->.
  - by intros e -> ->.
  - intros r e -> -> -> ->. reflexivity.
Qed.

(** X4. When the fetch fails, [sync_entity] adds nothing to what
    [get_entity_state] did.  A failure that is caught (a status other than
    200, a [RequestException], a [JSONDecodeError]) makes it return
    [False] after the request and its one log line; an exception that is
    not caught leaves [sync_entity] as it is, right after the request.
    The recorder is launched in neither case. *)
Theorem sync_entity_fetch_failed u t id name w h :
  let answer := fetch_answer w h u t id in
  let run := sync_entity str_repr u t id name w h in
  (fetch_caught answer ->
   run = (Return false, (get_entity_state u t id w h).2) /\
   (exists line, run.2 = [fetch_event u t id; Printed line]) /\
   invocations_of run.2 = []) /\
  (forall e, fetch_escapes answer e -> run = (Raise e, [fetch_event u t id])).
Proof.
  cbv zeta. split.
  - intros Hcaught.
    destruct (get_entity_state_caught u t id w h Hcaught) as [line Hget].
    rewrite (sync_entity_falsy u t id name w h PNone _ Hget eq_refl), Hget.
    split; [done|]. split; [by exists line|done].
  - intros e Hescapes. apply sync_entity_fetch_raised.
    by apply get_entity_state_escaped.
Qed.

(** X5. A truthy body that is not an object, or an object whose
    [attributes] is something else than an object: [sync_entity] raises
    [AttributeError] right after the request; nothing is printed, nothing
    is launched. *)
Theorem sync_entity_malformed_payload u t id name w h state :
  fetch_ok (fetch_answer w h u t id) state ->
  truthy state = true ->
  attributes_usable state = false ->
  sync_entity str_repr u t id name w h = (Raise AttributeError, [fetch_event u t id]).
Proof.
  intros Hok%get_entity_state_ok Htruthy Husable.
  destruct state as [| | | | | |d];
    try (apply (sync_entity_not_object _ _ _ _ _ _ _ _ Hok Htruthy); by intros d).
  rewrite (sync_entity_object _ _ _ _ _ _ _ _ Hok (truthy_dict _ Htruthy)).
  cbn [attributes_usable] in Husable. unfold dict_get.
  by destruct (dict_find d "attributes") as [[]|].
Qed.

Lemma sync_entity_object_located u t id name w h d lat lng :
  fetch_ok (fetch_answer w h u t id) (PDict d) ->
  attribute (PDict d) "latitude" = Some lat -> lat <> PNone ->
  attribute (PDict d) "longitude" = Some lng -> lng <> PNone ->
  sync_entity str_repr u t id name w h =
    match label_of (PDict d) id with
    | PStr label =>
        let lat := py_str str_repr lat in
        let lng := py_str str_repr lng in
        let launch :=
          run_process w (h ++ [fetch_event u t id]) (recorder_argv name lat lng label) in
        let '(r, es') := recorder_result name lat lng label launch in
        (r, [fetch_event u t id] ++ es')
    | _ => (Raise TypeError, [fetch_event u t id])
    end.
Proof.
  intros Hok Hlat Hlat' Hlng Hlng'.
  destruct (attribute_inv _ _ _ Hlat) as [Htruthy Husable].
  apply attributes_usable_inv in Husable as (d' & a & [= <-] & Hattrs & Hattr).
  rewrite (sync_entity_object u t id name w h d [fetch_event u t id]);
    [|by apply get_entity_state_ok|by apply truthy_dict].
  rewrite Hattrs. cbv zeta. rewrite !is_None_missing, <- !Hattr, Hlat, Hlng.
  rewrite !missing_Some by done. cbn [orb].
  unfold label_of, dict_get. rewrite <- !Hattr, Hlat, Hlng.
  by destruct (attribute (PDict d) "friendly_name") as [fn|]; cbn [truthy].
Qed.

(** X6. Both coordinates are there but the label is not a string (a truthy
    [friendly_name] that is a number, a list, ...): [sync_entity] raises
    [TypeError] and the recorder is not launched. *)
Theorem sync_entity_label_not_string u t id name w h state lat lng :
  fetch_ok (fetch_answer w h u t id) state ->
  attribute state "latitude" = Some lat -> lat <> PNone ->
  attribute state "longitude" = Some lng -> lng <> PNone ->
  is_PStr (label_of state id) = false ->
  sync_entity str_repr u t id name w h = (Raise TypeError, [fetch_event u t id]).
Proof.
  intros Hok Hlat Hlat' Hlng Hlng' Hlabel.
  destruct state as [| | | | | |d]; try done.
  rewrite (sync_entity_object_located _ _ _ _ _ _ _ _ _ Hok Hlat Hlat' Hlng Hlng').
  by destruct (label_of (PDict d) id).
Qed.


(** X8. An exception of the launch that is neither [CalledProcessError]
    nor [FileNotFoundError] (a [PermissionError], say) leaves
    [sync_entity] as it is, after the launch and with nothing printed. *)
Theorem sync_entity_launch_error_escapes u t id name w h state lat lng label e :
  fetch_ok (fetch_answer w h u t id) state ->
  attribute state "latitude" = Some lat -> lat <> PNone ->
  attribute state "longitude" = Some lng -> lng <> PNone ->
  label_of state id = PStr label ->
  let argv := recorder_argv name (py_str str_repr lat) (py_str str_repr lng) label in
  run_process w (h ++ [fetch_event u t id]) argv = LaunchFailed e ->
  handled e = false ->
  sync_entity str_repr u t id name w h = (Raise e, [fetch_event u t id; Invoked argv]).
Proof.
  intros Hok Hlat Hlat' Hlng Hlng' Hlabel argv Hlaunch Hhandled. subst argv.
  rewrite (sync_entity_located _ _ _ _ _ _ _ _ _ _ Hok Hlat Hlat' Hlng Hlng' Hlabel).
  cbv zeta. rewrite Hlaunch. by destruct e.
Qed.

(** ** The ways a sync can go *)

Lemma missing_false field :
  missing field = false -> exists v, field = Some v /\ v <> PNone.
Proof. destruct field as [[]|]; try done; intros _; by eexists. Qed.

Lemma sync_entity_cases u t id name w h :
  let run := sync_entity str_repr u t id name w h in
  (exists es, run = (Return false, es) /\ invocations_of es = []) \/
  (exists e, run = (Raise e, [fetch_event u t id]) /\
     (e = AttributeError \/ e = TypeError \/
      fetch_escapes (fetch_answer w h u t id) e)) \/
  (exists state lat lng label,
      fetch_ok (fetch_answer w h u t id) state /\
      attribute state "latitude" = Some lat /\ lat <> PNone /\
      attribute state "longitude" = Some lng /\ lng <> PNone /\
      label_of state id = PStr label /\
      let lat := py_str str_repr lat in
      let lng := py_str str_repr lng in
      let launch :=
        run_process w (h ++ [fetch_event u t id]) (recorder_argv name lat lng label) in
      run = ((recorder_result name lat lng label launch).1,
             fetch_event u t id :: (recorder_result name lat lng label launch).2)).
Proof.
  cbv zeta.
  destruct (fetch_cases (fetch_answer w h u t id))
    as [[state Hok]|[Hcaught|[e Hescapes]]].
  2:{ left. destruct (get_entity_state_caught u t id w h Hcaught) as [line Hget].
      eexists. by rewrite (sync_entity_falsy u t id name w h PNone _ Hget eq_refl). }
  2:{ right. left. exists e. split; [|by right; right].
      by apply sync_entity_fetch_raised, get_entity_state_escaped. }
  pose proof (get_entity_state_ok _ _ _ _ _ _ Hok) as Hget.
  destruct (truthy state) eqn:Htruthy.
  2:{ left. eexists. by rewrite (sync_entity_falsy _ _ _ _ _ _ _ _ Hget Htruthy). }
  destruct (attributes_usable state) eqn:Husable.
  2:{ right. left. exists AttributeError. split; [|by left].
      destruct state as [| | | | | |d];
        try (apply (sync_entity_not_object _ _ _ _ _ _ _ _ Hget Htruthy); by intros d).
      rewrite (sync_entity_object _ _ _ _ _ _ _ _ Hget (truthy_dict _ Htruthy)).
      cbn [attributes_usable] in Husable. unfold dict_get.
      by destruct (dict_find d "attributes") as [[]|]. }
  destruct (missing (attribute state "latitude") || missing (attribute state "longitude"))
    eqn:Hmissing.
  { left. apply attributes_usable_inv in Husable as (d & a & -> & Hattrs & Hattr).
    rewrite (sync_entity_object _ _ _ _ _ _ _ _ Hget (truthy_dict _ Htruthy)), Hattrs.
    cbv zeta. rewrite !is_None_missing, <- !Hattr, Hmissing. by eexists. }
  apply orb_false_elim in Hmissing as [Hlat Hlng].
  apply missing_false in Hlat as (lat & Hlat & Hlat').
  apply missing_false in Hlng as (lng & Hlng & Hlng').
  destruct (label_of state id) as [| | | |label| |] eqn:Hlabel.
  5:{ right. right. exists state, lat, lng, label. repeat (split; [done|]).
      exact (sync_entity_located u t id name w h state lat lng label
               Hok Hlat Hlat' Hlng Hlng' Hlabel). }
  all: right; left; exists TypeError; split; [|by right; left].
  all: destruct state as [| | | | | |d]; try done.
  all: rewrite (sync_entity_object_located _ _ _ _ _ _ _ _ _ Hok Hlat Hlat' Hlng Hlng').
  all: by rewrite Hlabel.
Qed.

Lemma recorder_result_true name lat lng label launch :
  (recorder_result name lat lng label launch).1 = Return true ->
  exists stderr, launch = Exited 0 stderr.
Proof.
  unfold recorder_result. destruct launch as [rc err|rc|e].
  - destruct (rc =? 0) eqn:Hrc; [|done]. apply Z.eqb_eq in Hrc as ->. by eexists.
  - done.
  - by destruct e.
Qed.

Lemma recorder_result_raise name lat lng label launch e :
  (recorder_result name lat lng label launch).1 = Raise e ->
  (launch = LaunchFailed e /\ handled e = false) \/
  (exists rc, launch = ExitedUndecodable rc /\ e = OtherException "UnicodeDecodeError").
Proof.
  unfold recorder_result. destruct launch as [rc err|rc|e'].
  - by destruct (rc =? 0).
  - intros [= <-]. right. by exists rc.
  - destruct e'; try done; intros [= <-]; by left.
Qed.

(** X9. The recorder is launched only for a state that was fetched with
    HTTP 200, holds both coordinates and has a string label, and then only
    with the argument list built from that state. *)
Theorem sync_entity_launch_only_when_located u t id name w h argv :
  argv ∈ invocations_of (sync_entity str_repr u t id name w h).2 ->
  exists state lat lng label,
    fetch_ok (fetch_answer w h u t id) state /\
    attribute state "latitude" = Some lat /\ lat <> PNone /\
    attribute state "longitude" = Some lng /\ lng <> PNone /\
    label_of state id = PStr label /\
    argv = recorder_argv name (py_str str_repr lat) (py_str str_repr lng) label.
Proof.
  destruct (sync_entity_cases u t id name w h)
    as [(es & -> & Hnone)|[(e & -> & _)|(state & lat & lng & label & Hok & Hlat & Hlat'
                                          & Hlng & Hlng' & Hlabel & ->)]];
    cbn [snd].
  - rewrite Hnone. by intros ?%elem_of_nil.
  - by intros ?%elem_of_nil.
  - unfold invocations_of. cbn [omap list_omap fetch_event].
    fold (invocations_of (recorder_result name (py_str str_repr lat)
            (py_str str_repr lng) label
            (run_process w (h ++ [fetch_event u t id])
               (recorder_argv name (py_str str_repr lat) (py_str str_repr lng) label))).2).
    rewrite recorder_result_invocations. intros ->%list_elem_of_singleton.
    by exists state, lat, lng, label.
Qed.

Lemma sync_entity_launch_count u t id name w h :
  let run := sync_entity str_repr u t id name w h in
  ((if succeeded run.1 then 1 else 0) <= length (invocations_of run.2) <= 1)%nat.
Proof.
  cbv zeta.
  destruct (sync_entity_cases u t id name w h)
    as [(es & -> & Hnone)|[(e & -> & _)|(state & lat & lng & label & _ & _ & _
                                          & _ & _ & _ & ->)]];
    cbn [fst snd succeeded].
  - rewrite Hnone. cbn. lia.
  - cbn. lia.
  - unfold invocations_of. cbn [omap list_omap fetch_event].
    fold (invocations_of (recorder_result name (py_str str_repr lat)
            (py_str str_repr lng) label
            (run_process w (h ++ [fetch_event u t id])
               (recorder_argv name (py_str str_repr lat) (py_str str_repr lng) label))).2).
    rewrite recorder_result_invocations. cbn [length].
    destruct (succeeded _); lia.
Qed.

(** X10. Whatever the service and the recorder do, one call of
    [sync_entity] sends exactly one request, the one for its entity, and
    launches the recorder at most once; it launches it when it returns
    [True]. *)
Theorem sync_entity_one_request_one_launch u t id name w h :
  let run := sync_entity str_repr u t id name w h in
  requests_of run.2 = [states_url u id] /\
  (length (invocations_of run.2) <= 1)%nat /\
  (run.1 = Return true -> length (invocations_of run.2) = 1%nat).
Proof.
  cbv zeta. pose proof (sync_entity_launch_count u t id name w h) as Hcount.
  cbv zeta in Hcount.
  destruct (sync_entity_shape u t id name w h) as (rest & Hes & Hreq & _).
  split; [|split].
  - rewrite Hes. unfold requests_of in *. cbn [omap list_omap fetch_event].
    fold (omap (λ e, match e with Requested url _ _ => Some url | _ => None end) rest).
    by rewrite Hreq.
  - lia.
  - intros Hret. rewrite Hret in Hcount. cbn [succeeded] in Hcount. lia.
Qed.

(** ** Launches and exceptions of a whole run *)

Lemma invocations_of_app es es' :
  invocations_of (es ++ es') = invocations_of es ++ invocations_of es'.
Proof. apply omap_app. Qed.

Lemma sync_outcomes_length u t items : forall w h,
  (length (sync_outcomes str_repr u t items w h) <= length items)%nat.
Proof.
  induction items as [|[id name] items IH]; intros w h; [done|].
  cbn [sync_outcomes].
  destruct (sync_entity str_repr u t id name w h) as [[ok|e] es]; cbn [length].
  - specialize (IH w (h ++ es)). lia.
  - lia.
Qed.

Lemma sync_all_launches u t items : forall c w h,
  let run := sync_all str_repr u t items c w h in
  let outcomes := sync_outcomes str_repr u t items w h in
  (successes outcomes <= length (invocations_of run.2) <= length outcomes)%nat /\
  (forall s, run.1 = Return s -> forallb returned outcomes = true) /\
  (forall e, run.1 = Raise e -> escape_origin w e).
Proof.
  induction items as [|[id name] items IH]; intros c w h; cbv zeta.
  { cbn. repeat split; try done; lia. }
  cbn [sync_all sync_outcomes]. rewrite run_bind.
  pose proof (sync_entity_launch_count u t id name w h) as Hcount.
  pose proof (sync_entity_cases u t id name w h) as Hcases.
  cbv zeta in Hcount, Hcases.
  destruct (sync_entity str_repr u t id name w h) as [[ok|e] es]; cbn [fst snd] in *.
  - specialize (IH (if ok then S c else c) w (h ++ es)). cbv zeta in IH.
    destruct IH as (IHcount & IHret & IHraise).
    destruct (sync_all str_repr u t items _ w _) as [r es']. cbn [fst snd] in *.
    rewrite successes_cons, invocations_of_app, length_app. cbn [length].
    split; [lia|]. split; [exact IHret|exact IHraise].
  - rewrite successes_cons. cbn [length succeeded successes filter list_filter] in *.
    split; [lia|]. split; [done|]. intros e' [= <-].
    destruct Hcases as [(es0 & [=] & _)|[(e0 & [= -> ->] & He)|Hlocated]].
    + destruct He as [He|[He|He]].
      * apply origin_payload. by left.
      * apply origin_payload. by right.
      * by eapply origin_fetch.
    + destruct Hlocated as (state & lat & lng & label & _ & _ & _ & _ & _ & _ & Hrun).
      injection Hrun as Hraise _. symmetry in Hraise.
      apply recorder_result_raise in Hraise as [[Hlaunch Hhandled]|(rc & Hlaunch & ->)].
      * by eapply origin_launch.
      * by eapply origin_decode.
Qed.

(** X11. [main] returns 0 only after a complete run: the configuration was
    valid, every entity of the mapping was requested, in order, and the
    recorder was launched once for each of them. *)
Theorem main_exit_zero entities se ce env w h :
  (main_with str_repr entities se ce env w h).1 = Return 0 ->
  let environ := loaded_environ se ce env in
  let events := (main_with str_repr entities se ce env w h).2 in
  config_valid environ = true /\
  requests_of events = states_url (base_url environ) <$> entities.*1 /\
  length (invocations_of events) = length entities.
Proof.
  cbv zeta. rewrite main_run.
  destruct (config_valid (loaded_environ se ce env)); [|done].
  pose proof (sync_all_run (base_url (loaded_environ se ce env))
                (token (loaded_environ se ce env)) entities 0%nat w h) as Hrun.
  pose proof (sync_all_launches (base_url (loaded_environ se ce env))
                (token (loaded_environ se ce env)) entities 0%nat w h) as Hlaunch.
  cbv zeta in Hrun, Hlaunch.
  destruct Hrun as (_ & Hreq & Hret). destruct Hlaunch as (Hcount & Hall & _).
  destruct (sync_all _ _ _ _ _ _ _) as [[s|e] es]; cbn [fst snd] in *; [|done].
  destruct (Nat.eqb_spec s (length entities)) as [Hs|]; [|done]. intros _.
  destruct (Hret (Hall s eq_refl)) as [[= Hsucc] Hlen]. cbn [Nat.add] in Hsucc.
  split; [done|]. split.
  - rewrite requests_of_app, app_nil_r, Hreq, Hlen.
    by rewrite <- (length_fmap fst), firstn_all.
  - rewrite invocations_of_app, app_nil_r. lia.
Qed.

(** X12. In every run the recorder is launched at most once per request
    sent, and no more requests are sent than the mapping has entities. *)
Theorem main_launch_bound entities se ce env w h :
  let events := (main_with str_repr entities se ce env w h).2 in
  (length (invocations_of events) <= length (requests_of events) <= length entities)%nat.
Proof.
  cbv zeta. rewrite main_run.
  destruct (config_valid (loaded_environ se ce env)); [|cbn; lia].
  pose proof (sync_all_run (base_url (loaded_environ se ce env))
                (token (loaded_environ se ce env)) entities 0%nat w h) as Hrun.
  pose proof (sync_all_launches (base_url (loaded_environ se ce env))
                (token (loaded_environ se ce env)) entities 0%nat w h) as Hlaunch.
  pose proof (sync_outcomes_length (base_url (loaded_environ se ce env))
                (token (loaded_environ se ce env)) entities w h) as Hlen.
  cbv zeta in Hrun, Hlaunch.
  destruct Hrun as (_ & Hreq & _). destruct Hlaunch as (Hcount & _ & _).
  assert (length (requests_of
            (sync_all str_repr (base_url (loaded_environ se ce env))
               (token (loaded_environ se ce env)) entities 0%nat w h).2)
          = length (sync_outcomes str_repr (base_url (loaded_environ se ce env))
                      (token (loaded_environ se ce env)) entities w h)) as Hrequests.
  { rewrite Hreq, length_fmap, length_take, length_fmap. lia. }
  destruct (sync_all _ _ _ _ _ _ _) as [[s|e] es]; cbn [fst snd] in *.
  - rewrite invocations_of_app, requests_of_app, !app_nil_r. lia.
  - lia.
Qed.


(** X14. With an empty mapping and a valid configuration [main] sends
    nothing, prints "Synced 0/0 entities" and returns 0. *)
Theorem main_empty_mapping se ce env w h :
  config_valid (loaded_environ se ce env) = true ->
  main_with str_repr [] se ce env w h = (Return 0, [Printed "Synced 0/0 entities"]).
Proof. intros Hvalid. by rewrite main_run, Hvalid. Qed.






Lemma successes_all outcomes :
  (successes outcomes <= length outcomes)%nat /\
  (successes outcomes = length outcomes <-> forallb succeeded outcomes = true).
Proof.
  induction outcomes as [|r outcomes [IHle IHiff]]; [done|].
  rewrite successes_cons. cbn [length forallb].
  destruct (succeeded r); cbn [andb]; split;
    first [lia | rewrite <- IHiff; lia | split; [lia|done]].
Qed.

Lemma succeeded_returned outcomes :
  forallb succeeded outcomes = true -> forallb returned outcomes = true.
Proof.
  induction outcomes as [|[[]|] outcomes IH]; cbn; auto; done.
Qed.

(** X19. With a valid configuration [main] returns 0 exactly when every
    entity of the mapping was attempted and every sync returned [True]. *)
Theorem main_exit_zero_iff entities se ce env w h :
  let environ := loaded_environ se ce env in
  config_valid environ = true ->
  let outcomes :=
    sync_outcomes str_repr (base_url environ) (token environ) entities w h in
  (main_with str_repr entities se ce env w h).1 = Return 0 <->
  length outcomes = length entities /\ forallb succeeded outcomes = true.
Proof.
  cbv zeta. intros Hvalid. rewrite main_run, Hvalid.
  pose proof (sync_all_run (base_url (loaded_environ se ce env))
                (token (loaded_environ se ce env)) entities 0%nat w h) as Hrun.
  pose proof (sync_all_launches (base_url (loaded_environ se ce env))
                (token (loaded_environ se ce env)) entities 0%nat w h) as Hlaunch.
  cbv zeta in Hrun, Hlaunch.
  destruct Hrun as (_ & _ & Hret). destruct Hlaunch as (_ & Hall & _).
  pose proof (successes_all
                (sync_outcomes str_repr (base_url (loaded_environ se ce env))
                   (token (loaded_environ se ce env)) entities w h)) as [_ Hiff].
  split.
  - destruct (sync_all _ _ _ _ _ _ _) as [[s|e] es]; cbn [fst] in *; [|done].
    destruct (Nat.eqb_spec s (length entities)) as [Hs|]; [|done]. intros _.
    destruct (Hret (Hall s eq_refl)) as [[= Hsucc] Hlen]. cbn [Nat.add] in Hsucc.
    split; [done|]. apply Hiff. lia.
  - intros [Hlen Hsucc]. destruct (Hret (succeeded_returned _ Hsucc)) as [Hs _].
    destruct (sync_all _ _ _ _ _ _ _) as [r es]; cbn [fst] in *. subst r.
    apply Hiff in Hsucc. cbn [Nat.add]. rewrite Hsucc, Hlen.
    by rewrite Nat.eqb_refl.
Qed.

(** ** Two runs on the same upstream answers *)

Lemma get_entity_state_same_upstream u t id w1 h1 w2 h2 :
  same_upstream w1 w2 ->
  get_entity_state u t id w1 h1 = get_entity_state u t id w2 h2.
Proof.
  intros Hsame. rewrite !get_entity_state_run. unfold fetch_answer.
  by rewrite (Hsame h1 h2).
Qed.



Lemma stable_ret {A} (a : A) : stable (mret a : M A).
Proof. by intros ? ? ? ? _. Qed.

Lemma stable_raise {A} e : stable (raise e : M A).
Proof. by intros ? ? ? ? _. Qed.

Lemma stable_lift {A} (r : result A) : stable (lift r).
Proof. by intros ? ? ? ? _. Qed.

Lemma stable_print line : stable (print line).
Proof. by intros ? ? ? ? _. Qed.



Lemma stable_requests_get url headers timeout : stable (requests_get url headers timeout).
Proof.
  intros w1 h1 w2 h2 [Hhttp _]. unfold requests_get. by rewrite (Hhttp h1 h2).
Qed.

Lemma stable_subprocess_run args : stable (subprocess_run args).
Proof.
  intros w1 h1 w2 h2 [_ Hproc]. unfold subprocess_run.
  destruct (as_argv args) as [argv|]; [|done]. by rewrite (Hproc h1 h2).
Qed.

Create HintDb stable.
#[local] Hint Resolve stable_ret stable_raise stable_lift stable_print
  stable_requests_get stable_subprocess_run : stable.








End Properties.

(** ** The claims at sample inputs *)

Lemma get_entity_state_contract_witness :
  (get_entity_state "http://ha.local:8123" "secret" "person.harper"
     (answering harper_state (Exited 0 "")) []).1 = Return harper_state.
Proof.
  apply (get_entity_state_contract "http://ha.local:8123" "secret" "person.harper"
           (answering harper_state (Exited 0 "")) []).
  by constructor.
Defined.

(** C3 as worded fails when the parser or [requests.get] raises an
    exception that is no [RequestException]: a body nested too deep gives
    [RecursionError], a token outside latin-1 gives [UnicodeEncodeError],
    and either leaves [get_entity_state]. *)
Lemma no_data_uncaught_exception :
  get_entity_state "http://ha.local:8123" "secret" "person.harper" too_deep []
  = (Raise (OtherException "RecursionError"),
     [fetch_event "http://ha.local:8123" "secret" "person.harper"]) /\
  ~ no_data_claim "http://ha.local:8123" "secret" "person.harper" too_deep [] /\
  ~ no_data_claim "http://ha.local:8123" "secret" "person.harper" unencodable_token [].
Proof.
  split; [reflexivity|].
  split; intros (_ & _ & Hnever); by eapply Hnever.
Qed.

Lemma sync_entity_falsy_body_witness :
  sync_entity ascii_repr "http://ha.local:8123" "secret" "person.harper" "harper"
    (answering (PDict []) (Exited 0 "")) []
  = (Return false, [fetch_event "http://ha.local:8123" "secret" "person.harper"]).
Proof.
  apply (sync_entity_falsy_body ascii_repr _ _ _ _ _ _ (PDict [])).
  - by constructor.
  - reflexivity.
Defined.





(** C7 as worded fails on an empty [friendly_name]: the field is present,
    the label passed is the entity id. *)
Lemma label_empty_friendly_name :
  invocations_of
    (sync_entity ascii_repr "http://ha.local:8123" "secret" "person.harper" "harper"
       (answering (located (PStr "")) (Exited 0 "")) []).2
  = [recorder_argv "harper" "40.0" "-73.9" "person.harper"] /\
  ~ label_claim ascii_repr "http://ha.local:8123" "secret" "person.harper" "harper"
      (answering (located (PStr "")) (Exited 0 "")) [] (located (PStr "")).
Proof.
  split; [reflexivity|].
  intros Hclaim.
  destruct (Hclaim (PFloat "40.0") (PFloat "-73.9")
              ltac:(by constructor) eq_refl ltac:(done) eq_refl ltac:(done))
    as [Hpresent _].
  specialize (Hpresent "" eq_refl). vm_compute in Hpresent. discriminate Hpresent.
Qed.

Lemma label_resolution_witness :
  invocations_of
    (sync_entity ascii_repr "http://ha.local:8123" "secret" "person.harper" "harper"
       (answering harper_state (Exited 0 "")) []).2
  = [recorder_argv "harper" "40.0" "-73.9" "Harper"].
Proof.
  refine (proj1 (label_resolution ascii_repr "http://ha.local:8123" "secret"
                   "person.harper" "harper" (answering harper_state (Exited 0 "")) []
                   harper_state (PFloat "40.0") (PFloat "-73.9") _ _ _ _ _)
            "Harper" _ _).
  - by constructor.
  - reflexivity.
  - discriminate.
  - reflexivity.
  - discriminate.
  - reflexivity.
  - discriminate.
Defined.

Lemma main_config_missing_witness :
  main ascii_repr None None {[ "HASS_URL" := "http://ha.local:8123" ]}
    (answering harper_state (Exited 0 "")) []
  = (Return 1, [Printed config_error_line]).
Proof.
  refine (proj1 (main_config_missing ascii_repr ENTITIES None None
                   {[ "HASS_URL" := "http://ha.local:8123" ]}
                   (answering harper_state (Exited 0 "")) [] _)).
  right. right. left. reflexivity.
Defined.

(** C1 as worded fails when an entity's sync raises: a body that is a
    list has no [get], a recorder that may not be executed raises
    [PermissionError]; either exception leaves [main] after the first
    request and no summary is printed. *)
Lemma summary_uncaught_exception :
  main_with ascii_repr two_entities None None sample_environ all_states []
  = (Raise AttributeError,
     [fetch_event "http://ha.local:8123" "secret" "person.harper"]) /\
  ~ summary_claim ascii_repr two_entities None None sample_environ all_states [] /\
  ~ summary_claim ascii_repr two_entities None None sample_environ not_executable [].
Proof.
  split; [reflexivity|].
  split; intros Hclaim; destruct (Hclaim eq_refl) as (es & Hrun & _);
    vm_compute in Hrun; discriminate Hrun.
Qed.

Lemma main_summary_witness :
  summary_contract 1 2
    (main_with ascii_repr two_entities None None sample_environ second_missing []).
Proof.
  refine (main_summary ascii_repr two_entities None None sample_environ
            second_missing [] _ _).
  - reflexivity.
  - reflexivity.
Defined.

(** C5 as worded fails in the same runs: the first entity's sync raises
    and the second entity is never requested. *)
Lemma fetch_uncaught_exception :
  requests_of
    (main_with ascii_repr two_entities None None sample_environ all_states []).2
  = ["http://ha.local:8123/api/states/person.harper"] /\
  ~ fetch_claim ascii_repr two_entities None None sample_environ all_states [] /\
  ~ fetch_claim ascii_repr two_entities None None sample_environ not_executable [].
Proof.
  split; [reflexivity|].
  split; intros Hclaim; specialize (Hclaim eq_refl);
    vm_compute in Hclaim; discriminate Hclaim.
Qed.

Lemma main_fetches_in_order_witness :
  requests_of
    (main_with ascii_repr two_entities None None sample_environ second_missing []).2
  = ["http://ha.local:8123/api/states/person.harper";
     "http://ha.local:8123/api/states/device_tracker.car"].
Proof.
  refine (proj1 (proj2 (main_fetches_in_order ascii_repr two_entities None None
                          sample_environ second_missing [] _)) _).
  - reflexivity.
  - reflexivity.
Defined.



Lemma fetch_urls_normalised_witness :
  exists configured k entity_id,
    sample_environ !! "HASS_URL" = Some configured /\
    configured = "http://ha.local:8123" +:+ slashes k /\
    last_char "http://ha.local:8123" <> Some "/"%char /\
    entity_id ∈ ["person.harper"] /\
    "http://ha.local:8123/api/states/person.harper"
    = "http://ha.local:8123" +:+ "/api/states/" +:+ entity_id.
Proof.
  refine (fetch_urls_normalised ascii_repr ENTITIES None None sample_environ
            (answering harper_state (Exited 0 "")) []
            "http://ha.local:8123/api/states/person.harper" _).
  vm_compute. left.
Defined.

(** ** The further properties at sample inputs *)

Lemma get_entity_state_failure_log_witness :
  get_entity_state "http://ha.local:8123" "secret" "person.harper" unavailable []
  = (Return PNone,
     [fetch_event "http://ha.local:8123" "secret" "person.harper";
      Printed "Failed to fetch person.harper: HTTP 503"]).
Proof.
  refine (proj1 (get_entity_state_failure_log "http://ha.local:8123" "secret"
                   "person.harper" unavailable [])
            {| status_code := 503; json := inr (JSONDecodeError "Expecting value") |}
            _ _).
  - reflexivity.
  - discriminate.
Defined.

Lemma sync_entity_fetch_failed_witness :
  sync_entity ascii_repr "http://ha.local:8123" "secret" "person.harper" "harper"
    unavailable []
  = (Return false,
     [fetch_event "http://ha.local:8123" "secret" "person.harper";
      Printed "Failed to fetch person.harper: HTTP 503"]).
Proof.
  refine (proj1 (proj1 (sync_entity_fetch_failed ascii_repr "http://ha.local:8123"
                          "secret" "person.harper" "harper" unavailable []) _)).
  apply fetch_caught_status. discriminate.
Defined.

Lemma sync_entity_malformed_payload_witness :
  sync_entity ascii_repr "http://ha.local:8123" "secret" "person.harper" "harper"
    all_states []
  = (Raise AttributeError, [fetch_event "http://ha.local:8123" "secret" "person.harper"]).
Proof.
  refine (sync_entity_malformed_payload ascii_repr "http://ha.local:8123" "secret"
            "person.harper" "harper" all_states [] (PList [harper_state]) _ _ _).
  - by constructor.
  - reflexivity.
  - reflexivity.
Defined.

Lemma sync_entity_label_not_string_witness :
  sync_entity ascii_repr "http://ha.local:8123" "secret" "person.harper" "harper"
    (answering (located (PInt 5)) (Exited 0 "")) []
  = (Raise TypeError, [fetch_event "http://ha.local:8123" "secret" "person.harper"]).
Proof.
  refine (sync_entity_label_not_string ascii_repr "http://ha.local:8123" "secret"
            "person.harper" "harper" (answering (located (PInt 5)) (Exited 0 "")) []
            (located (PInt 5)) (PFloat "40.0") (PFloat "-73.9") _ _ _ _ _ _).
  - by constructor.
  - reflexivity.
  - discriminate.
  - reflexivity.
  - discriminate.
  - reflexivity.
Defined.


Lemma sync_entity_launch_error_escapes_witness :
  sync_entity ascii_repr "http://ha.local:8123" "secret" "person.harper" "harper"
    not_executable []
  = (Raise (OtherException "PermissionError"),
     [fetch_event "http://ha.local:8123" "secret" "person.harper";
      Invoked (recorder_argv "harper" "40.0" "-73.9" "Harper")]).
Proof.
  refine (sync_entity_launch_error_escapes ascii_repr "http://ha.local:8123" "secret"
            "person.harper" "harper" not_executable [] harper_state
            (PFloat "40.0") (PFloat "-73.9") "Harper" (OtherException "PermissionError")
            _ _ _ _ _ _ _ _).
  - by constructor.
  - reflexivity.
  - discriminate.
  - reflexivity.
  - discriminate.
  - reflexivity.
  - reflexivity.
  - reflexivity.
Defined.

Lemma sync_entity_launch_only_when_located_witness :
  exists state lat lng label,
    fetch_ok (fetch_answer (answering harper_state (Exited 0 "")) []
                "http://ha.local:8123" "secret" "person.harper") state /\
    attribute state "latitude" = Some lat /\ lat <> PNone /\
    attribute state "longitude" = Some lng /\ lng <> PNone /\
    label_of state "person.harper" = PStr label /\
    recorder_argv "harper" "40.0" "-73.9" "Harper"
    = recorder_argv "harper" (py_str ascii_repr lat) (py_str ascii_repr lng) label.
Proof.
  refine (sync_entity_launch_only_when_located ascii_repr "http://ha.local:8123"
            "secret" "person.harper" "harper" (answering harper_state (Exited 0 "")) []
            (recorder_argv "harper" "40.0" "-73.9" "Harper") _).
  vm_compute. left.
Defined.

Lemma sync_entity_one_request_one_launch_witness :
  length (invocations_of
            (sync_entity ascii_repr "http://ha.local:8123" "secret" "person.harper"
               "harper" (answering harper_state (Exited 0 "")) []).2) = 1%nat.
Proof.
  refine (proj2 (proj2 (sync_entity_one_request_one_launch ascii_repr
                          "http://ha.local:8123" "secret" "person.harper" "harper"
                          (answering harper_state (Exited 0 "")) [])) _).
  reflexivity.
Defined.

Lemma main_exit_zero_witness :
  length (invocations_of
            (main_with ascii_repr two_entities None None sample_environ
               (answering harper_state (Exited 0 "")) []).2) = 2%nat.
Proof.
  refine (proj2 (proj2 (main_exit_zero ascii_repr two_entities None None
                          sample_environ (answering harper_state (Exited 0 "")) [] _))).
  reflexivity.
Defined.


Lemma main_empty_mapping_witness :
  main_with ascii_repr [] None None sample_environ unavailable []
  = (Return 0, [Printed "Synced 0/0 entities"]).
Proof.
  refine (main_empty_mapping ascii_repr None None sample_environ unavailable [] _).
  reflexivity.
Defined.




Lemma main_exit_zero_iff_witness :
  (main_with ascii_repr two_entities None None sample_environ
     (answering harper_state (Exited 0 "")) []).1 = Return 0.
Proof.
  refine (proj2 (main_exit_zero_iff ascii_repr two_entities None None sample_environ
                   (answering harper_state (Exited 0 "")) [] _) _).
  - reflexivity.
  - split; reflexivity.
Defined.
